(** * sqlbuilder: a shallow embedding of pkg/sqlbuilder/builder.go

    The Go package builds SQL [select] statements out of small
    expression values.  Every value of the package is immutable once it
    is built and every [Build] method is a read of that value, so the
    embedding is a family of Rocq functions on records: a Go interface
    value is the record of its bound methods, a struct is a record, a
    statement option (a Go function on a statement pointer) is a function
    from statements to statements, and the local variables of [Statement.Build] are an
    explicit frame that the three loops of the method thread through. *)

From Stdlib Require Import Ascii String List.
From stdpp Require Import base option list gmap strings.


(** ** The parts of Go's [strings] package that the code calls *)

Module strings.

(** [strings.Join(elems, sep)] *)
Fixpoint Join (elems : list string) (sep : string) : string :=
  match elems with
  | [] => ""
  | [x] => x
  | x :: rest => x +:+ sep +:+ Join rest sep
  end.

(** The six ASCII bytes of [unicode.IsSpace]: tab, line feed, vertical
    tab, form feed, carriage return and the space. *)
Definition asciiSpace (c : ascii) : bool :=
  let n := nat_of_ascii c in
  (((9 <=? n) && (n <=? 13)) || (n =? 32))%nat.

(** The two-byte UTF-8 encodings of white space: U+0085 and U+00A0. *)
Definition space2 (c d : ascii) : bool :=
  ((nat_of_ascii c =? 194) &&
   ((nat_of_ascii d =? 133) || (nat_of_ascii d =? 160)))%nat.

(** The three-byte UTF-8 encodings of white space: U+1680,
    U+2000..U+200A, U+2028, U+2029, U+202F, U+205F and U+3000. *)
Definition space3 (c d e : ascii) : bool :=
  let c := nat_of_ascii c in
  let d := nat_of_ascii d in
  let e := nat_of_ascii e in
  (((c =? 225) && (d =? 154) && (e =? 128))
   || ((c =? 226) && (d =? 128) &&
       (((128 <=? e) && (e <=? 138)) || (e =? 168) || (e =? 169) || (e =? 175)))
   || ((c =? 226) && (d =? 129) && (e =? 159))
   || ((c =? 227) && (d =? 128) && (e =? 128)))%nat.

(** [strings.TrimLeftFunc(s, unicode.IsSpace)]: drop white-space runes
    from the front until a rune that is not white space. *)
Fixpoint TrimLeft (s : string) : string :=
  match s with
  | EmptyString => s
  | String c r =>
      if asciiSpace c then TrimLeft r else
      match r with
      | EmptyString => s
      | String d r2 =>
          if space2 c d then TrimLeft r2 else
          match r2 with
          | EmptyString => s
          | String e r3 => if space3 c d e then TrimLeft r3 else s
          end
      end
  end.

(** [s] is made of white-space runes only. *)
Fixpoint onlySpace (s : string) : bool :=
  match s with
  | EmptyString => true
  | String c r =>
      if asciiSpace c then onlySpace r else
      match r with
      | EmptyString => false
      | String d r2 =>
          if space2 c d then onlySpace r2 else
          match r2 with
          | EmptyString => false
          | String e r3 => space3 c d e && onlySpace r3
          end
      end
  end.

(** [strings.TrimRightFunc(s, unicode.IsSpace)]: cut the longest
    suffix made of white-space runes. *)
Fixpoint TrimRight (s : string) : string :=
  match s with
  | EmptyString => s
  | String c r => if onlySpace s then "" else String c (TrimRight r)
  end.

(** [strings.TrimSpace(s)] *)
Definition TrimSpace (s : string) : string := TrimRight (TrimLeft s).

End strings.

(** ** Kinds *)

Inductive StatementKind : Set :=
  | _unknownStatement
  | _SelectStatement.

(** The order of the constructors is the order of the constant block:
    it is the order in which the clauses show up in a statement. *)
Inductive ClauseKind : Set :=
  | _unknownClause
  | _FromClause
  | _JoinClause
  | _LeftJoinClause
  | _WhereClause
  | _GroupByClause
  | _OrderByClause.

(** The [uint] value of a clause kind ([iota]). *)
Definition ClauseKind_uint (k : ClauseKind) : nat :=
  match k with
  | _unknownClause => 0
  | _FromClause => 1
  | _JoinClause => 2
  | _LeftJoinClause => 3
  | _WhereClause => 4
  | _GroupByClause => 5
  | _OrderByClause => 6
  end.

Definition StatementKind_uint (k : StatementKind) : nat :=
  match k with
  | _unknownStatement => 0
  | _SelectStatement => 1
  end.

#[global] Instance ClauseKind_eq_dec : EqDecision ClauseKind.
Proof. solve_decision. Defined.

#[global] Instance StatementKind_eq_dec : EqDecision StatementKind.
Proof. solve_decision. Defined.

Definition ClauseKind_of_uint (n : nat) : option ClauseKind :=
  match n with
  | 0 => Some _unknownClause
  | 1 => Some _FromClause
  | 2 => Some _JoinClause
  | 3 => Some _LeftJoinClause
  | 4 => Some _WhereClause
  | 5 => Some _GroupByClause
  | 6 => Some _OrderByClause
  | _ => None
  end.

#[global] Program Instance ClauseKind_countable : Countable ClauseKind :=
  inj_countable ClauseKind_uint ClauseKind_of_uint _.
Next Obligation. by intros []. Qed.

(** Modelled from the spec: the [String] methods and the tables
    [_StatementKind_index] and [_ClauseKind_index], which
    [go:generate stringer -linecomment] writes into a file that is not
    part of the sources.  The name of a kind is its line comment (the
    keyword text of the spec: select, from, join, left join, where,
    group by, order by) and, for the two constants without one, the name
    of the constant; the names are stored back to back in one string and
    the index table holds where each starts, with one more entry for the
    end of the last. *)
Definition _StatementKind_name : string := "_unknownStatementselect".
Definition _StatementKind_index : list nat := [0; 17; 23].
Definition _ClauseKind_name : string :=
  "_unknownClausefromjoinleft joinwheregroup byorder by".
Definition _ClauseKind_index : list nat := [0; 14; 18; 22; 31; 36; 44; 52].

Definition stringer_name (name : string) (index : list nat) (i : nat) : string :=
  match index !! i, index !! S i with
  | Some lo, Some hi => substring lo (hi - lo) name
  | _, _ => ""
  end.

Definition StatementKind_String (k : StatementKind) : string :=
  stringer_name _StatementKind_name _StatementKind_index (StatementKind_uint k).

Definition ClauseKind_String (k : ClauseKind) : string :=
  stringer_name _ClauseKind_name _ClauseKind_index (ClauseKind_uint k).

(** ** Interfaces

    An interface value is the record of its methods, each bound to the
    receiver; a method without arguments takes [tt]. *)

Module Expression.
Record t : Type := make { Build : unit -> string }.
End Expression.
Abbreviation Expression := Expression.t.

Module Clause.
Record t : Type := make {
  Kind : unit -> ClauseKind;
  Delimeter : unit -> string;
  Expr : Expression;
}.
End Clause.
Abbreviation Clause := Clause.t.
Coercion Clause.Expr : Clause.t >-> Expression.t.

Definition defaultPlaceholder : string := "?".
Definition defaultExpressionDelimeter : string := ", ".

(** ** Expressions *)

Module SimpleListExpression.
Record t : Type := make { Delimeter : string; Values : list string }.

Definition Build (e : t) : string := strings.Join (Values e) (Delimeter e).
End SimpleListExpression.
Abbreviation SimpleListExpression := SimpleListExpression.t.

Module MultiExpression.
Record t : Type := make { Delimeter : string; Expressions : list Expression }.

(** The loop appends one rendered value per expression, in order. *)
Definition Build (e : t) : string :=
  let sl := SimpleListExpression.make (Delimeter e) [] in
  let sl :=
    fold_left
      (fun sl expr =>
         SimpleListExpression.make
           (SimpleListExpression.Delimeter sl)
           (SimpleListExpression.Values sl ++ [Expression.Build expr tt]))
      (Expressions e) sl in
  SimpleListExpression.Build sl.

Definition to_Expression (e : t) : Expression :=
  Expression.make (fun _ => Build e).
End MultiExpression.
Abbreviation MultiExpression := MultiExpression.t.
Coercion MultiExpression.to_Expression : MultiExpression.t >-> Expression.t.

(** [type ExpressionFunc func() string] *)
Definition ExpressionFunc : Type := unit -> string.

Definition ExpressionFunc_Build (e : ExpressionFunc) : string := e tt.

Definition ExpressionFunc_to_Expression (e : ExpressionFunc) : Expression :=
  Expression.make (fun _ => ExpressionFunc_Build e).
Coercion ExpressionFunc_to_Expression : ExpressionFunc >-> Expression.t.

Definition Ref (name : string) : ExpressionFunc :=
  fun _ => name.

Definition Const (value : string) : ExpressionFunc :=
  fun _ => "'" +:+ value +:+ "'".

Definition As (expr : Expression) (alias : string) : ExpressionFunc :=
  fun _ => Expression.Build expr tt +:+ " as " +:+ ExpressionFunc_Build (Const alias).

Definition RefAs (name alias : string) : ExpressionFunc :=
  As (Ref name) alias.

(** [fmt.Sprintf("%s over (%s)", fn, clause.Build())] *)
Definition Window (fn : string) (clause : Clause) : ExpressionFunc :=
  fun _ => fn +:+ " over (" +:+ Expression.Build clause tt +:+ ")".

Definition Wrap (expr : Expression) : ExpressionFunc :=
  fun _ => "(" +:+ Expression.Build expr tt +:+ ")".

Definition Func (fn : string) (args : list Expression) : ExpressionFunc :=
  let call := Ref fn in
  let me := MultiExpression.make defaultExpressionDelimeter args in
  fun _ => ExpressionFunc_Build call +:+ ExpressionFunc_Build (Wrap me).

Definition Columns (cols : list Expression) : Expression :=
  MultiExpression.make defaultExpressionDelimeter cols.

(** The right operand is the one interface value that the code tests
    against [nil]: it is an option, [None] for [nil]. *)
Definition Predicate (op : string) (left : Expression) (right : option Expression)
  : ExpressionFunc :=
  fun _ =>
    let s := Expression.Build left tt +:+ " " +:+ op in
    let s :=
      match right with
      | Some expr => s +:+ (" " +:+ Expression.Build expr tt)
      | None => s
      end in
    s.

Definition Equals (left : Expression) (right : option Expression) : ExpressionFunc :=
  Predicate "=" left right.

Definition Greater (left : Expression) (right : option Expression) : ExpressionFunc :=
  Predicate ">" left right.

Definition Less (left : Expression) (right : option Expression) : ExpressionFunc :=
  Predicate "<" left right.

Definition GreaterOrEqual (left : Expression) (right : option Expression) : ExpressionFunc :=
  Predicate ">=" left right.

Definition LessOrEqual (left : Expression) (right : option Expression) : ExpressionFunc :=
  Predicate "<=" left right.

Definition In (left right : Expression) : ExpressionFunc :=
  Predicate "in" left (Some (Wrap right : Expression)).

Definition Like (left : Expression) (right : option Expression) : ExpressionFunc :=
  Predicate "like" left right.

Definition NotLike (left : Expression) (right : option Expression) : ExpressionFunc :=
  Predicate "not like" left right.

Definition Between (left : Expression) (right : option Expression) : ExpressionFunc :=
  Predicate "between" left right.

Definition IsNull (expr : Expression) : ExpressionFunc :=
  Predicate "is null" expr None.

Definition IsNotNull (expr : Expression) : ExpressionFunc :=
  Predicate "is not null" expr None.

Definition Placeholder : ExpressionFunc :=
  fun _ => defaultPlaceholder.

(** ** Clauses

    Each clause struct has its three methods and the conversion to the
    [Clause] interface. *)

Module fromClause.
Record t : Type := make { tables : list Expression }.

Definition Kind (c : t) : ClauseKind := _FromClause.
Definition Delimeter (c : t) : string := ", ".

Definition Build (c : t) : string :=
  let values := map (fun e => Expression.Build e tt) (tables c) in
  strings.Join values defaultExpressionDelimeter.

Definition to_Clause (c : t) : Clause :=
  Clause.make (fun _ => Kind c) (fun _ => Delimeter c)
    (Expression.make (fun _ => Build c)).
End fromClause.
Abbreviation fromClause := fromClause.t.
Coercion fromClause.to_Clause : fromClause.t >-> Clause.t.

Module joinClause.
Record t : Type := make { table : Expression; predicates : list Expression }.

Definition Kind (c : t) : ClauseKind := _JoinClause.
Definition Delimeter (c : t) : string := " ".

(** [fmt.Sprintf("%s %s on %s", ...)] *)
Definition Build (c : t) : string :=
  let values := map (fun e => Expression.Build e tt) (predicates c) in
  ClauseKind_String (Kind c) +:+ " " +:+ Expression.Build (table c) tt
    +:+ " on " +:+ strings.Join values " and ".

Definition to_Clause (c : t) : Clause :=
  Clause.make (fun _ => Kind c) (fun _ => Delimeter c)
    (Expression.make (fun _ => Build c)).
End joinClause.
Abbreviation joinClause := joinClause.t.
Coercion joinClause.to_Clause : joinClause.t >-> Clause.t.

Module leftJoinClause.
Record t : Type := make { table : Expression; predicates : list Expression }.

Definition Kind (c : t) : ClauseKind := _LeftJoinClause.
Definition Delimeter (c : t) : string := " ".

Definition Build (c : t) : string :=
  let values := map (fun e => Expression.Build e tt) (predicates c) in
  ClauseKind_String (Kind c) +:+ " " +:+ Expression.Build (table c) tt
    +:+ " on " +:+ strings.Join values " and ".

Definition to_Clause (c : t) : Clause :=
  Clause.make (fun _ => Kind c) (fun _ => Delimeter c)
    (Expression.make (fun _ => Build c)).
End leftJoinClause.
Abbreviation leftJoinClause := leftJoinClause.t.
Coercion leftJoinClause.to_Clause : leftJoinClause.t >-> Clause.t.

Module whereClause.
Record t : Type := make { predicates : MultiExpression }.

Definition Kind (c : t) : ClauseKind := _WhereClause.
Definition Delimeter (c : t) : string := " and ".

Definition Build (c : t) : string :=
  ExpressionFunc_Build (Wrap (predicates c)).

Definition to_Clause (c : t) : Clause :=
  Clause.make (fun _ => Kind c) (fun _ => Delimeter c)
    (Expression.make (fun _ => Build c)).
End whereClause.
Abbreviation whereClause := whereClause.t.
Coercion whereClause.to_Clause : whereClause.t >-> Clause.t.

Module groupByClause.
Record t : Type := make { columns : list string }.

Definition Kind (c : t) : ClauseKind := _GroupByClause.
Definition Delimeter (c : t) : string := ", ".

Definition Build (c : t) : string :=
  let cols := strings.Join (columns c) defaultExpressionDelimeter in
  ClauseKind_String (Kind c) +:+ " " +:+ cols.

Definition to_Clause (c : t) : Clause :=
  Clause.make (fun _ => Kind c) (fun _ => Delimeter c)
    (Expression.make (fun _ => Build c)).
End groupByClause.
Abbreviation groupByClause := groupByClause.t.
Coercion groupByClause.to_Clause : groupByClause.t >-> Clause.t.

Module orderByClause.
Record t : Type := make { columns : list string }.

Definition Kind (c : t) : ClauseKind := _OrderByClause.
Definition Delimeter (c : t) : string := ", ".

Definition Build (c : t) : string :=
  let cols := strings.Join (columns c) defaultExpressionDelimeter in
  ClauseKind_String (Kind c) +:+ " " +:+ cols.

Definition to_Clause (c : t) : Clause :=
  Clause.make (fun _ => Kind c) (fun _ => Delimeter c)
    (Expression.make (fun _ => Build c)).
End orderByClause.
Abbreviation orderByClause := orderByClause.t.
Coercion orderByClause.to_Clause : orderByClause.t >-> Clause.t.

Definition OrderByC (cols : list string) : Clause :=
  orderByClause.make cols.

(** ** [sync.Once] *)

Module sync.
Record Once : Type := mkOnce { done : bool }.

Definition newOnce : Once := mkOnce false.

(** [once.Do(f)]: [f] runs on the state the closure captures, the
    first time only. *)
Definition Do {S : Type} (o : Once) (f : S -> S) (st : S) : Once * S :=
  if done o then (o, st) else (mkOnce true, f st).
End sync.

(** ** The statement and its assembler *)

Module clauseBuilder.
Record t : Type := make { kind : ClauseKind; me : MultiExpression }.
End clauseBuilder.
Abbreviation clauseBuilder := clauseBuilder.t.

Module Statement.
Record t : Type := make {
  Kind : StatementKind;
  Expressions : list Expression;
  Clauses : list Clause;
}.

(** The receiver (a copy: the method has a value receiver) and the
    three locals of [Build].  A slot of [clauses] is [None] for the
    nil pointer. *)
Record frame : Type := mkFrame {
  s : t;
  builder : string;
  clauses : list (option clauseBuilder);
  onceClauses : gmap ClauseKind sync.Once;
}.

Definition WriteString (str : string) (fr : frame) : frame :=
  mkFrame (s fr) (builder fr +:+ str) (clauses fr) (onceClauses fr).

Definition set_clauses (cl : list (option clauseBuilder)) (fr : frame) : frame :=
  mkFrame (s fr) (builder fr) cl (onceClauses fr).

Definition set_onceClauses (m : gmap ClauseKind sync.Once) (fr : frame) : frame :=
  mkFrame (s fr) (builder fr) (clauses fr) m.

(** The declarations and the [switch] on the statement kind. *)
Definition enter (st : t) : frame :=
  let fr :=
    mkFrame st "" (replicate (length _ClauseKind_index) None) ∅ in
  match Kind (s fr) with
  | _SelectStatement =>
      set_onceClauses
        (<[_FromClause := sync.newOnce]> (<[_WhereClause := sync.newOnce]> ∅)) fr
  | _ => fr
  end.

(** Body of [for _, expr := range s.Expressions]. *)
Definition write_expr (fr : frame) (expr : Expression) : frame :=
  WriteString (Expression.Build expr tt +:+ " ") fr.

(** Body of [for _, clause := range s.Clauses].  The index is in
    range and the slot is set before it is read, so the last branch of
    each match is never taken (see [ClauseKind_uint_lt]). *)
Definition collect (fr : frame) (clause : Clause) : frame :=
  let kind := Clause.Kind clause tt in
  let fr :=
    match clauses fr !! ClauseKind_uint kind with
    | Some None =>
        set_clauses
          (<[ClauseKind_uint kind :=
               Some (clauseBuilder.make kind
                       (MultiExpression.make (Clause.Delimeter clause tt) []))]>
             (clauses fr)) fr
    | _ => fr
    end in
  match clauses fr !! ClauseKind_uint kind with
  | Some (Some cb) =>
      let cb :=
        clauseBuilder.make (clauseBuilder.kind cb)
          (MultiExpression.make
             (MultiExpression.Delimeter (clauseBuilder.me cb))
             (MultiExpression.Expressions (clauseBuilder.me cb)
                ++ [clause : Expression])) in
      set_clauses (<[ClauseKind_uint kind := Some cb]> (clauses fr)) fr
  | _ => fr
  end.

(** Body of [for _, group := range clauses]. *)
Definition emit (fr : frame) (group : option clauseBuilder) : frame :=
  match group with
  | Some group =>
      let kind := clauseBuilder.kind group in
      let fr :=
        match onceClauses fr !! kind with
        | Some once =>
            let '(once, fr) :=
              sync.Do once (WriteString (ClauseKind_String kind +:+ " ")) fr in
            set_onceClauses (<[kind := once]> (onceClauses fr)) fr
        | None => fr
        end in
      WriteString (MultiExpression.Build (clauseBuilder.me group) +:+ " ") fr
  | None => fr
  end.

(** The frame when [Build] reaches its [return]. *)
Definition run (st : t) : frame :=
  let fr := enter st in
  let fr := WriteString (StatementKind_String (Kind (s fr)) +:+ " ") fr in
  let fr := fold_left write_expr (Expressions (s fr)) fr in
  let fr := fold_left collect (Clauses (s fr)) fr in
  let fr := fold_left emit (clauses fr) fr in
  fr.

Definition Build (st : t) : string :=
  strings.TrimSpace (builder (run st)).

Definition to_Expression (st : t) : Expression :=
  Expression.make (fun _ => Build st).
End Statement.
Abbreviation Statement := Statement.t.
Coercion Statement.to_Expression : Statement.t >-> Expression.t.

(** A [StatementOption] is a function on a statement pointer: here, from
    the statement behind the pointer before the call to the one after. *)
Definition StatementOption : Type := Statement -> Statement.

Definition append_clause (st : Statement) (c : Clause) : Statement :=
  Statement.make (Statement.Kind st) (Statement.Expressions st)
    (Statement.Clauses st ++ [c]).

Definition Select (columns : Expression) (opts : list StatementOption) : Statement :=
  let st := Statement.make _SelectStatement [columns] [] in
  fold_left (fun st opt => opt st) opts st.

Definition From (tables : list Expression) : StatementOption :=
  fun st => append_clause st (fromClause.make tables).

Definition FromSubselect (sub : Statement) (as_ : string) : StatementOption :=
  let expr := Wrap sub in
  let expr := if decide (as_ ≠ "") then As expr as_ else expr in
  From [expr : Expression].

Definition Join (table : Expression) (predicates : list Expression) : StatementOption :=
  fun st => append_clause st (joinClause.make table predicates).

Definition LeftJoin (table : Expression) (predicates : list Expression) : StatementOption :=
  fun st => append_clause st (leftJoinClause.make table predicates).

Definition Where (predicates : list Expression) : StatementOption :=
  fun st =>
    let me := MultiExpression.make " and " predicates in
    append_clause st (whereClause.make me).

Definition OrderBy (cols : list string) : StatementOption :=
  fun st => append_clause st (orderByClause.make cols).

Definition GroupBy (cols : list string) : StatementOption :=
  fun st => append_clause st (groupByClause.make cols).

(** ** What the assembler is expected to write

    The definitions below are the reading of the output that the
    theorems compare [Statement.Build] with: the clauses of one kind, in
    the order of the clause list, and the text of one kind's group. *)

(** The kinds in ascending order of their values. *)
Definition ClauseKind_ascending : list ClauseKind :=
  [_unknownClause; _FromClause; _JoinClause; _LeftJoinClause; _WhereClause;
   _GroupByClause; _OrderByClause].

(** The clauses of kind [k], in the order they were appended. *)
Definition clauses_of_kind (k : ClauseKind) (cs : list Clause) : list Clause :=
  filter (fun c => Clause.Kind c tt = k) cs.

(** Concatenation of the written pieces. *)
Fixpoint cat (pieces : list string) : string :=
  match pieces with
  | [] => ""
  | x :: rest => x +:+ cat rest
  end.

(** What is written before the clauses: the statement keyword, then each
    top-level expression, each followed by a space. *)
Definition header (st : Statement) : string :=
  (StatementKind_String (Statement.Kind st) +:+ " ")
    +:+ cat (map (fun e => Expression.Build e tt +:+ " ") (Statement.Expressions st)).

(** The keyword that the assembler itself writes in front of a group. *)
Definition keyword_once (sk : StatementKind) (k : ClauseKind) : string :=
  match sk, k with
  | _SelectStatement, _FromClause => ClauseKind_String k +:+ " "
  | _SelectStatement, _WhereClause => ClauseKind_String k +:+ " "
  | _, _ => ""
  end.

(** The text of the group of kind [k]: nothing when no clause has the
    kind; else the keyword (if any), the clauses' own texts joined by the
    delimiter of the first of them, and a space. *)
Definition group_text (sk : StatementKind) (cs : list Clause) (k : ClauseKind) : string :=
  match clauses_of_kind k cs with
  | [] => ""
  | (c :: _) as g =>
      keyword_once sk k
        +:+ strings.Join (map (fun c : Clause => Expression.Build c tt) g)
              (Clause.Delimeter c tt)
        +:+ " "
  end.

(** The clause list put in kind order, each kind keeping its order. *)
Definition kind_sorted (cs : list Clause) : list Clause :=
  concat (map (fun k => clauses_of_kind k cs) ClauseKind_ascending).

(** [strings.Contains(s, substr)] *)
Fixpoint Contains (s substr : string) : bool :=
  if String.prefix substr s then true
  else match s with
       | EmptyString => false
       | String _ r => Contains r substr
       end.

(** An ASCII byte that is not white space: it is no white-space rune and
    no part of the encoding of one. *)
Definition plain (c : ascii) : bool :=
  (nat_of_ascii c <? 128) && negb (strings.asciiSpace c).

(** Two frames that may differ in the builder only. *)
Definition with_builder (b : string) (fr : Statement.frame) : Statement.frame :=
  Statement.mkFrame (Statement.s fr) b (Statement.clauses fr)
    (Statement.onceClauses fr).

(** The slot array, read as a function of the kind; the eighth slot
    belongs to no kind. *)
Definition slots_of (f : ClauseKind -> option clauseBuilder)
  : list (option clauseBuilder) :=
  map f ClauseKind_ascending ++ [None].

(** The slot of kind [k] once the clauses [g] of that kind went in. *)
Definition grow (k : ClauseKind) (slot : option clauseBuilder) (g : list Clause)
  : option clauseBuilder :=
  match slot, g with
  | Some cb, _ =>
      Some (clauseBuilder.make (clauseBuilder.kind cb)
              (MultiExpression.make
                 (MultiExpression.Delimeter (clauseBuilder.me cb))
                 (MultiExpression.Expressions (clauseBuilder.me cb)
                    ++ map Clause.Expr g)))
  | None, [] => None
  | None, c :: _ =>
      Some (clauseBuilder.make k
              (MultiExpression.make (Clause.Delimeter c tt) (map Clause.Expr g)))
  end.

(** What one group adds to the builder, given the once-table. *)
Definition slot_text (m : gmap ClauseKind sync.Once) (slot : option clauseBuilder)
  : string :=
  match slot with
  | None => ""
  | Some cb =>
      (match m !! clauseBuilder.kind cb with
       | Some _ => ClauseKind_String (clauseBuilder.kind cb) +:+ " "
       | None => ""
       end)
        +:+ MultiExpression.Build (clauseBuilder.me cb) +:+ " "
  end.

(** The group of kind [k] as the second loop leaves it. *)
Definition slot_of (cs : list Clause) (k : ClauseKind) : option clauseBuilder :=
  grow k None (clauses_of_kind k cs).

(** The clauses that the package itself declares. *)
Inductive declared : Clause -> Prop :=
  | declared_from (c : fromClause) : declared c
  | declared_join (c : joinClause) : declared c
  | declared_leftJoin (c : leftJoinClause) : declared c
  | declared_where (c : whereClause) : declared c
  | declared_groupBy (c : groupByClause) : declared c
  | declared_orderBy (c : orderByClause) : declared c.

(** The delimiter that the clause type of each kind declares. *)
Definition declared_Delimeter (k : ClauseKind) : string :=
  match k with
  | _unknownClause => ""
  | _FromClause => ", "
  | _JoinClause => " "
  | _LeftJoinClause => " "
  | _WhereClause => " and "
  | _GroupByClause => ", "
  | _OrderByClause => ", "
  end.

(** The kinds below and above a kind. *)
Definition kinds_below (k : ClauseKind) : list ClauseKind :=
  filter (fun k' => ClauseKind_uint k' < ClauseKind_uint k) ClauseKind_ascending.

Definition kinds_above (k : ClauseKind) : list ClauseKind :=
  filter (fun k' => ClauseKind_uint k < ClauseKind_uint k') ClauseKind_ascending.

(** A configuration function that does nothing but append the clause
    [c] to the statement it is applied to. *)
Definition appends (opt : StatementOption) (c : Clause) : Prop :=
  forall st, opt st = append_clause st c.

(** A configuration function that appends one clause. *)
Definition appends_one (opt : StatementOption) : Prop :=
  exists c, appends opt c.

(** The text of a group that is written without a keyword in front. *)
Definition group_body (cs : list Clause) (k : ClauseKind) : string :=
  match clauses_of_kind k cs with
  | [] => ""
  | (c :: _) as g =>
      strings.Join (map (fun c : Clause => Expression.Build c tt) g)
        (Clause.Delimeter c tt)
        +:+ " "
  end.

(** [s] starts with a white-space rune. *)
Definition leadingSpace (s : string) : bool :=
  match s with
  | EmptyString => false
  | String c r =>
      strings.asciiSpace c
      || match r with
         | EmptyString => false
         | String d r2 =>
             strings.space2 c d
             || match r2 with
                | EmptyString => false
                | String e _ => strings.space3 c d e
                end
         end
  end.

(** ** Strings *)

Lemma string_app_nil_l (x : string) : "" +:+ x = x.
Proof. reflexivity. Qed.

Lemma string_app_cons (c : ascii) (x y : string) :
  String c x +:+ y = String c (x +:+ y).
Proof. reflexivity. Qed.

Lemma string_app_nil_r (x : string) : x +:+ "" = x.
Proof.
  induction x as [|c x IH]; [done|].
  by rewrite string_app_cons, IH.
Qed.

Lemma string_app_assoc (x y z : string) : (x +:+ y) +:+ z = x +:+ y +:+ z.
Proof.
  induction x as [|c x IH]; [done|].
  by rewrite !string_app_cons, IH.
Qed.

Lemma cat_app (l1 l2 : list string) : cat (l1 ++ l2) = cat l1 +:+ cat l2.
Proof.
  induction l1 as [|x l1 IH]; simpl; [done|].
  by rewrite IH, string_app_assoc.
Qed.

Lemma prefix_app (x y : string) : String.prefix x (x +:+ y) = true.
Proof.
  induction x as [|c x IH]; [by destruct y|].
  rewrite string_app_cons. simpl.
  destruct (ascii_dec c c); [done | congruence].
Qed.

Lemma Contains_unfold (s sub : string) :
  Contains s sub =
  if String.prefix sub s then true
  else match s with
       | EmptyString => false
       | String _ r => Contains r sub
       end.
Proof. by destruct s. Qed.

Lemma Contains_intro (pre sub post : string) :
  Contains (pre +:+ sub +:+ post) sub = true.
Proof.
  induction pre as [|c pre IH].
  - by rewrite string_app_nil_l, Contains_unfold, prefix_app.
  - rewrite string_app_cons, Contains_unfold, IH.
    by destruct (String.prefix sub _).
Qed.

(** *** Trimming *)

Ltac plain_cases H :=
  unfold plain, strings.asciiSpace, strings.space2, strings.space3 in *;
  repeat match goal with
         | |- context [nat_of_ascii ?x] =>
             let n := fresh "n" in
             set (n := nat_of_ascii x) in *; clearbody n
         end;
  apply andb_true_iff in H as [?%Nat.ltb_lt ?%negb_true_iff];
  repeat match goal with
         | |- context [Nat.eqb ?a ?b] => destruct (Nat.eqb_spec a b)
         | |- context [Nat.leb ?a ?b] => destruct (Nat.leb_spec a b)
         end;
  cbn [andb orb negb]; first [reflexivity | lia].

Lemma plain_asciiSpace c : plain c = true -> strings.asciiSpace c = false.
Proof. unfold plain. intros [_ ?%negb_true_iff]%andb_true_iff. done. Qed.

Lemma plain_space2_l c d : plain c = true -> strings.space2 c d = false.
Proof. intros H. plain_cases H. Qed.

Lemma plain_space2_r c d : plain d = true -> strings.space2 c d = false.
Proof. intros H. plain_cases H. Qed.

Lemma plain_space3_1 c d e : plain c = true -> strings.space3 c d e = false.
Proof. intros H. plain_cases H. Qed.

Lemma plain_space3_2 c d e : plain d = true -> strings.space3 c d e = false.
Proof. intros H. plain_cases H. Qed.

Lemma plain_space3_3 c d e : plain e = true -> strings.space3 c d e = false.
Proof. intros H. plain_cases H. Qed.

Lemma onlySpace_cons (c : ascii) (r : string) :
  strings.onlySpace (String c r) =
  if strings.asciiSpace c then strings.onlySpace r else
    match r with
    | EmptyString => false
    | String d r2 =>
        if strings.space2 c d then strings.onlySpace r2 else
          match r2 with
          | EmptyString => false
          | String e r3 => strings.space3 c d e && strings.onlySpace r3
          end
    end.
Proof. reflexivity. Qed.

Lemma TrimLeft_cons (c : ascii) (r : string) :
  strings.TrimLeft (String c r) =
  if strings.asciiSpace c then strings.TrimLeft r else
    match r with
    | EmptyString => String c r
    | String d r2 =>
        if strings.space2 c d then strings.TrimLeft r2 else
          match r2 with
          | EmptyString => String c r
          | String e r3 =>
              if strings.space3 c d e then strings.TrimLeft r3 else String c r
          end
    end.
Proof. reflexivity. Qed.

Lemma TrimRight_cons (c : ascii) (r : string) :
  strings.TrimRight (String c r) =
  if strings.onlySpace (String c r) then "" else String c (strings.TrimRight r).
Proof. reflexivity. Qed.

(** A string that starts with a plain byte has nothing to trim on the
    left. *)
Lemma TrimLeft_plain (c : ascii) (r : string) :
  plain c = true -> strings.TrimLeft (String c r) = String c r.
Proof.
  intros H. rewrite TrimLeft_cons, plain_asciiSpace by done.
  destruct r as [|d [|e r]]; [done|..];
    rewrite plain_space2_l by done; [done|].
  by rewrite plain_space3_1.
Qed.

(** A string with a plain byte in it is not white space only. *)
Lemma onlySpace_plain (c : ascii) (z : string) :
  plain c = true ->
  forall (n : nat) (y : string),
    String.length y <= n -> strings.onlySpace (y +:+ String c z) = false.
Proof.
  intros H n. induction n as [n IH] using lt_wf_ind. intros y Hlen.
  assert (H0 : strings.onlySpace (String c z) = false).
  { rewrite onlySpace_cons, plain_asciiSpace by done.
    destruct z as [|d [|e z]]; [done|..];
      rewrite plain_space2_l by done; [done|].
    by rewrite plain_space3_1. }
  destruct y as [|a y]; [done|].
  rewrite string_app_cons, onlySpace_cons.
  destruct (strings.asciiSpace a).
  { apply (IH (String.length y)); simpl in *; lia. }
  destruct y as [|b y].
  { rewrite string_app_nil_l, plain_space2_r by done.
    destruct z; [done|]. by rewrite plain_space3_2. }
  rewrite string_app_cons.
  destruct (strings.space2 a b).
  { apply (IH (String.length y)); simpl in *; lia. }
  destruct y as [|e y].
  { rewrite string_app_nil_l. by rewrite plain_space3_3. }
  rewrite string_app_cons.
  rewrite (IH (String.length y)) by (simpl in *; lia).
  apply andb_false_r.
Qed.

(** After a plain byte, one trailing space is all there is to trim. *)
Lemma TrimRight_plain_space (c : ascii) (y : string) :
  plain c = true ->
  strings.TrimRight (y +:+ String c " ") = y +:+ String c "".
Proof.
  intros H. induction y as [|a y IH].
  - pose proof (onlySpace_plain c " " H 0 "" (le_n 0)) as E.
    rewrite string_app_nil_l in E.
    by rewrite !string_app_nil_l, TrimRight_cons, E.
  - pose proof (onlySpace_plain c " " H _ (String a y) (le_n _)) as E.
    rewrite string_app_cons in E.
    by rewrite !string_app_cons, TrimRight_cons, E, IH.
Qed.

Lemma TrimRight_onlySpace (z : string) :
  strings.onlySpace z = true -> strings.TrimRight z = "".
Proof. destruct z as [|c z]; [done|]. rewrite TrimRight_cons. by intros ->. Qed.

Lemma TrimRight_plain_cons (c : ascii) (r : string) :
  plain c = true -> strings.TrimRight (String c r) = String c (strings.TrimRight r).
Proof.
  intros H. pose proof (onlySpace_plain c r H 0 "" (le_n 0)) as E.
  rewrite string_app_nil_l in E. by rewrite TrimRight_cons, E.
Qed.

(** After a plain byte, a tail of white space is all there is to trim. *)
Lemma TrimRight_plain_tail (c : ascii) (y z : string) :
  plain c = true -> strings.onlySpace z = true ->
  strings.TrimRight (y +:+ String c z) = y +:+ String c "".
Proof.
  intros H Hz. induction y as [|a y IH].
  - by rewrite !string_app_nil_l, TrimRight_plain_cons, TrimRight_onlySpace.
  - pose proof (onlySpace_plain c z H _ (String a y) (le_n _)) as E.
    rewrite string_app_cons in E.
    by rewrite !string_app_cons, TrimRight_cons, E, IH.
Qed.

(** Trimming a builder that starts with the select keyword and whose
    last byte before the trailing white space is plain. *)
Lemma TrimSpace_select (body : string) (c : ascii) (z : string) :
  plain c = true -> strings.onlySpace z = true ->
  strings.TrimSpace ("select " +:+ body +:+ String c z)
  = "select " +:+ body +:+ String c "".
Proof.
  intros H Hz. unfold strings.TrimSpace.
  change ("select " +:+ body +:+ String c z)
    with (String "s" ("elect " +:+ body +:+ String c z)).
  rewrite TrimLeft_plain by done.
  change (String "s" ("elect " +:+ body +:+ String c z))
    with ("select " +:+ body +:+ String c z).
  rewrite <- string_app_assoc, TrimRight_plain_tail by done.
  by rewrite string_app_assoc.
Qed.

(** *** Trimming twice *)

Lemma TrimLeft_no_leadingSpace (s : string) :
  leadingSpace s = false -> strings.TrimLeft s = s.
Proof.
  destruct s as [|c [|d [|e r]]]; [done|..]; rewrite TrimLeft_cons;
    unfold leadingSpace;
    destruct (strings.asciiSpace c); try done;
    try (destruct (strings.space2 c d); try done);
    try (destruct (strings.space3 c d e); try done).
Qed.

Lemma leadingSpace_TrimLeft (s : string) :
  leadingSpace (strings.TrimLeft s) = false.
Proof.
  remember (String.length s) as n eqn:Hn. revert s Hn.
  induction n as [n IH] using lt_wf_ind. intros s Hn.
  destruct s as [|c r]; [done|]. rewrite TrimLeft_cons.
  destruct (strings.asciiSpace c) eqn:Ec.
  { apply (IH (String.length r)); [simpl in Hn; lia | done]. }
  destruct r as [|d r2].
  { unfold leadingSpace. by rewrite Ec. }
  destruct (strings.space2 c d) eqn:E2.
  { apply (IH (String.length r2)); [simpl in Hn; lia | done]. }
  destruct r2 as [|e r3].
  { unfold leadingSpace. by rewrite Ec, E2. }
  destruct (strings.space3 c d e) eqn:E3.
  { apply (IH (String.length r3)); [simpl in Hn; lia | done]. }
  unfold leadingSpace. by rewrite Ec, E2, E3.
Qed.

Lemma leadingSpace_prefix (x z : string) :
  leadingSpace (x +:+ z) = false -> leadingSpace x = false.
Proof.
  destruct x as [|c [|d [|e r]]]; [done|..];
    rewrite ?string_app_cons, ?string_app_nil_l;
    unfold leadingSpace;
    destruct (strings.asciiSpace c); try done;
    try (destruct (strings.space2 c d); try done);
    try (destruct (strings.space3 c d e); try done).
Qed.

Lemma TrimRight_split (s : string) :
  exists z, s = strings.TrimRight s +:+ z /\ strings.onlySpace z = true.
Proof.
  induction s as [|c r (z & Hr & Hz)]; [by exists ""|].
  rewrite TrimRight_cons. destruct (strings.onlySpace (String c r)) eqn:E.
  - by exists (String c r).
  - exists z. split; [|done]. by rewrite string_app_cons, <- Hr.
Qed.

Lemma onlySpace_app (x z : string) :
  strings.onlySpace x = true -> strings.onlySpace z = true ->
  strings.onlySpace (x +:+ z) = true.
Proof.
  intros Hx Hz. remember (String.length x) as n eqn:Hn. revert x Hn Hx.
  induction n as [n IH] using lt_wf_ind. intros x Hn Hx.
  destruct x as [|c r]; [done|].
  rewrite string_app_cons, onlySpace_cons. rewrite onlySpace_cons in Hx.
  destruct (strings.asciiSpace c).
  { apply (IH (String.length r)); [simpl in Hn; lia | done..]. }
  destruct r as [|d r2]; [done|]. rewrite string_app_cons.
  destruct (strings.space2 c d).
  { apply (IH (String.length r2)); [simpl in Hn; lia | done..]. }
  destruct r2 as [|e r3]; [done|]. rewrite string_app_cons.
  apply andb_true_iff in Hx as [-> Hx]. simpl.
  apply (IH (String.length r3)); [simpl in Hn; lia | done..].
Qed.

Lemma TrimRight_twice (s : string) :
  strings.TrimRight (strings.TrimRight s) = strings.TrimRight s.
Proof.
  induction s as [|c r IH]; [done|].
  rewrite TrimRight_cons. destruct (strings.onlySpace (String c r)) eqn:E; [done|].
  rewrite TrimRight_cons, IH.
  destruct (strings.onlySpace (String c (strings.TrimRight r))) eqn:E'; [|done].
  destruct (TrimRight_split r) as (z & Hr & Hz).
  pose proof (onlySpace_app _ _ E' Hz) as F.
  rewrite string_app_cons, <- Hr in F. congruence.
Qed.

Lemma TrimSpace_twice (s : string) :
  strings.TrimLeft (strings.TrimSpace s) = strings.TrimSpace s
  /\ strings.TrimRight (strings.TrimSpace s) = strings.TrimSpace s.
Proof.
  unfold strings.TrimSpace. split; [|apply TrimRight_twice].
  apply TrimLeft_no_leadingSpace.
  destruct (TrimRight_split (strings.TrimLeft s)) as (z & Hs & _).
  apply (leadingSpace_prefix _ z). rewrite <- Hs. apply leadingSpace_TrimLeft.
Qed.

(** ** The loops of the assembler *)

Lemma ClauseKind_uint_lt (k : ClauseKind) :
  ClauseKind_uint k < length _ClauseKind_index.
Proof. destruct k; simpl; lia. Qed.

Lemma ClauseKind_ascending_NoDup : NoDup ClauseKind_ascending.
Proof. compute_done. Qed.

Lemma ClauseKind_ascending_all (k : ClauseKind) : k ∈ ClauseKind_ascending.
Proof. destruct k; compute_done. Qed.

Lemma MultiExpression_values (es : list Expression) (d : string) (vs : list string) :
  fold_left
    (fun sl expr =>
       SimpleListExpression.make
         (SimpleListExpression.Delimeter sl)
         (SimpleListExpression.Values sl ++ [Expression.Build expr tt]))
    es (SimpleListExpression.make d vs)
  = SimpleListExpression.make d (vs ++ map (fun e => Expression.Build e tt) es).
Proof.
  revert vs. induction es as [|e es IH]; intros vs; simpl.
  - by rewrite app_nil_r.
  - rewrite IH. by rewrite <- app_assoc.
Qed.

Lemma MultiExpression_Build_Join (d : string) (es : list Expression) :
  MultiExpression.Build (MultiExpression.make d es)
  = strings.Join (map (fun e => Expression.Build e tt) es) d.
Proof.
  unfold MultiExpression.Build. simpl.
  by rewrite MultiExpression_values.
Qed.

Lemma write_expr_fold (es : list Expression) (fr : Statement.frame) :
  fold_left Statement.write_expr es fr
  = with_builder
      (Statement.builder fr
         +:+ cat (map (fun e => Expression.Build e tt +:+ " ") es)) fr.
Proof.
  revert fr. induction es as [|e es IH]; intros [st b cl m]; simpl.
  - unfold with_builder. simpl. by rewrite string_app_nil_r.
  - rewrite IH. unfold with_builder, Statement.write_expr, Statement.WriteString.
    simpl. by rewrite string_app_assoc.
Qed.

Lemma grow_cons (k : ClauseKind) (slot : option clauseBuilder) (c : Clause)
    (g : list Clause) :
  grow k (grow k slot [c]) g = grow k slot (c :: g).
Proof.
  destruct slot as [[kd [d es]]|]; simpl.
  - by rewrite <- app_assoc.
  - done.
Qed.

Lemma grow_nil (k : ClauseKind) (slot : option clauseBuilder) :
  grow k slot [] = slot.
Proof.
  destruct slot as [[kd [d es]]|]; simpl; [|done].
  by rewrite app_nil_r.
Qed.

(** One pass of the second loop touches the slot of the clause's kind
    and nothing else. *)
Lemma collect_slots (f : ClauseKind -> option clauseBuilder)
    (fr : Statement.frame) (c : Clause) :
  Statement.clauses fr = slots_of f ->
  Statement.collect fr c
  = Statement.set_clauses
      (slots_of (fun k => if decide (k = Clause.Kind c tt)
                          then grow k (f k) [c] else f k)) fr.
Proof.
  destruct fr as [st b cl m]. simpl. intros ->.
  unfold Statement.collect, Statement.set_clauses.
  destruct (Clause.Kind c tt) eqn:Ek; simpl;
    match goal with
    | |- context [f ?k] => destruct (f k) as [[kd [d es]]|] eqn:Ef
    end; unfold slots_of, ClauseKind_ascending; simpl; rewrite ?Ef; reflexivity.
Qed.

Lemma collect_fold (cs : list Clause) :
  forall (f : ClauseKind -> option clauseBuilder) (fr : Statement.frame),
    Statement.clauses fr = slots_of f ->
    exists f',
      fold_left Statement.collect cs fr = Statement.set_clauses (slots_of f') fr
      /\ forall k, f' k = grow k (f k) (clauses_of_kind k cs).
Proof.
  induction cs as [|c cs IH]; intros f fr Hfr.
  - exists f. split.
    + destruct fr; simpl in *. by subst.
    + intros k. by rewrite grow_nil.
  - simpl. rewrite (collect_slots f fr c Hfr).
    edestruct (IH (fun k => if decide (k = Clause.Kind c tt)
                            then grow k (f k) [c] else f k)
                 (Statement.set_clauses
                    (slots_of (fun k => if decide (k = Clause.Kind c tt)
                                        then grow k (f k) [c] else f k)) fr))
      as (f' & Hfold & Hf'); [done|].
    exists f'. split.
    + rewrite Hfold. by destruct fr.
    + intros k. rewrite Hf'. unfold clauses_of_kind.
      rewrite filter_cons. destruct (decide (k = Clause.Kind c tt)) as [->|Hne].
      * rewrite decide_True by done. apply grow_cons.
      * rewrite decide_False by done. done.
Qed.

(** One pass of the third loop, for a group whose once-object, if the
    kind has one, has not run yet. *)
Lemma emit_Some (fr : Statement.frame) (cb : clauseBuilder) :
  (forall o, Statement.onceClauses fr !! clauseBuilder.kind cb = Some o ->
             sync.done o = false) ->
  Statement.emit fr (Some cb)
  = Statement.mkFrame (Statement.s fr)
      (Statement.builder fr +:+ slot_text (Statement.onceClauses fr) (Some cb))
      (Statement.clauses fr)
      (match Statement.onceClauses fr !! clauseBuilder.kind cb with
       | Some _ => <[clauseBuilder.kind cb := sync.mkOnce true]> (Statement.onceClauses fr)
       | None => Statement.onceClauses fr
       end).
Proof.
  destruct fr as [st b cl m]. simpl. intros Hfresh.
  unfold Statement.emit. simpl.
  destruct (m !! clauseBuilder.kind cb) as [o|] eqn:Em.
  - unfold sync.Do. rewrite (Hfresh o eq_refl).
    unfold Statement.WriteString, Statement.set_onceClauses. simpl.
    by rewrite !string_app_assoc.
  - unfold Statement.WriteString. simpl. done.
Qed.

Lemma emit_fold (f : ClauseKind -> option clauseBuilder) :
  (forall k cb, f k = Some cb -> clauseBuilder.kind cb = k) ->
  forall (ks : list ClauseKind) (fr : Statement.frame),
    NoDup ks ->
    (forall k o, k ∈ ks -> Statement.onceClauses fr !! k = Some o ->
                 sync.done o = false) ->
    exists m',
      fold_left Statement.emit (map f ks) fr
      = Statement.mkFrame (Statement.s fr)
          (Statement.builder fr
             +:+ cat (map (fun k => slot_text (Statement.onceClauses fr) (f k)) ks))
          (Statement.clauses fr) m'
      /\ (forall k, k ∉ ks \/ f k = None -> m' !! k = Statement.onceClauses fr !! k)
      /\ (forall k, k ∈ ks -> is_Some (f k) ->
                    m' !! k = (fun _ => sync.mkOnce true) <$> Statement.onceClauses fr !! k).
Proof.
  intros Hkind ks. induction ks as [|k0 ks IH]; intros fr Hnd Hfresh.
  - exists (Statement.onceClauses fr). simpl. split; [|split].
    + destruct fr. simpl. by rewrite string_app_nil_r.
    + done.
    + intros k Hk. by apply elem_of_nil in Hk.
  - apply NoDup_cons in Hnd as [Hk0 Hnd]. simpl.
    destruct (f k0) as [cb|] eqn:Ef.
    + pose proof (Hkind _ _ Ef) as Hcb.
      rewrite emit_Some
        by (intros o Ho; rewrite Hcb in Ho; eapply Hfresh; [left|done]).
      rewrite Hcb.
      set (m1 := match Statement.onceClauses fr !! k0 with
                 | Some _ => <[k0 := sync.mkOnce true]> (Statement.onceClauses fr)
                 | None => Statement.onceClauses fr
                 end).
      assert (Hm1 : forall k, k ≠ k0 -> m1 !! k = Statement.onceClauses fr !! k).
      { intros k Hne. unfold m1.
        destruct (Statement.onceClauses fr !! k0); [|done].
        by rewrite lookup_insert_ne. }
      assert (Hm1' : m1 !! k0
                     = (fun _ => sync.mkOnce true) <$> Statement.onceClauses fr !! k0).
      { unfold m1. destruct (Statement.onceClauses fr !! k0) eqn:E; simpl.
        - by rewrite lookup_insert_eq.
        - done. }
      edestruct (IH (Statement.mkFrame (Statement.s fr)
                       (Statement.builder fr +:+
                          slot_text (Statement.onceClauses fr) (Some cb))
                       (Statement.clauses fr) m1))
        as (m' & Hfold & Hsame & Hdone); [done| |].
      { simpl. intros k o Hk Ho. rewrite Hm1 in Ho by set_solver.
        eapply Hfresh; [by right|done]. }
      exists m'. split; [|split].
      * rewrite Hfold. cbn [Statement.s Statement.builder Statement.clauses
                             Statement.onceClauses map cat].
        f_equal. rewrite string_app_assoc. do 3 f_equal.
        apply map_ext_in. intros k Hk%list_elem_of_In.
        destruct (f k) as [cb'|] eqn:Ef'; [|done]. simpl.
        rewrite (Hkind _ _ Ef'), Hm1 by set_solver. done.
      * intros k [Hk|Hk].
        -- rewrite Hsame by set_solver. apply Hm1. set_solver.
        -- rewrite Hsame by auto. apply Hm1. congruence.
      * intros k Hk Hs. apply elem_of_cons in Hk as [->|Hk].
        -- rewrite Hsame by auto. done.
        -- rewrite Hdone by done. f_equal. apply Hm1. set_solver.
    + simpl. edestruct (IH fr) as (m' & Hfold & Hsame & Hdone); [done| |].
      { intros k o Hk. apply Hfresh. by right. }
      exists m'. split; [|split].
      * by rewrite Hfold.
      * intros k [Hk|Hk]; apply Hsame; [set_solver|auto].
      * intros k Hk Hs. apply elem_of_cons in Hk as [->|Hk].
        -- rewrite Ef in Hs. by destruct Hs.
        -- by apply Hdone.
Qed.

(** ** The frame at the end of [Build] *)

Lemma slot_of_kind (cs : list Clause) (k : ClauseKind) (cb : clauseBuilder) :
  slot_of cs k = Some cb -> clauseBuilder.kind cb = k.
Proof.
  unfold slot_of, grow. destruct (clauses_of_kind k cs); intros H; by simplify_eq.
Qed.

Lemma slot_of_None (cs : list Clause) (k : ClauseKind) :
  slot_of cs k = None <-> clauses_of_kind k cs = [].
Proof. unfold slot_of, grow. by destruct (clauses_of_kind k cs). Qed.

Lemma enter_s (st : Statement) : Statement.s (Statement.enter st) = st.
Proof. unfold Statement.enter. simpl. by destruct (Statement.Kind st). Qed.

Lemma enter_builder (st : Statement) : Statement.builder (Statement.enter st) = "".
Proof. unfold Statement.enter. simpl. by destruct (Statement.Kind st). Qed.

Lemma enter_clauses (st : Statement) :
  Statement.clauses (Statement.enter st) = slots_of (fun _ => None).
Proof. unfold Statement.enter. simpl. by destruct (Statement.Kind st). Qed.

(** The once-table of a statement kind: a fresh once-object for [from]
    and for [where] in a select statement, and no entry otherwise. *)
Lemma enter_onceClauses (st : Statement) (k : ClauseKind) :
  Statement.onceClauses (Statement.enter st) !! k
  = match Statement.Kind st, k with
    | _SelectStatement, _FromClause => Some sync.newOnce
    | _SelectStatement, _WhereClause => Some sync.newOnce
    | _, _ => None
    end.
Proof.
  unfold Statement.enter. simpl.
  destruct (Statement.Kind st); simpl; [apply lookup_empty|].
  destruct k;
    repeat first [ rewrite lookup_insert_eq | rewrite lookup_insert_ne by done
                 | rewrite lookup_empty ]; done.
Qed.

Lemma enter_fresh (st : Statement) (k : ClauseKind) (o : sync.Once) :
  Statement.onceClauses (Statement.enter st) !! k = Some o -> sync.done o = false.
Proof.
  rewrite enter_onceClauses.
  destruct (Statement.Kind st), k; intros H; by simplify_eq.
Qed.

Lemma slot_text_group (st : Statement) (k : ClauseKind) :
  slot_text (Statement.onceClauses (Statement.enter st))
    (slot_of (Statement.Clauses st) k)
  = group_text (Statement.Kind st) (Statement.Clauses st) k.
Proof.
  unfold slot_of, group_text, grow.
  destruct (clauses_of_kind k (Statement.Clauses st)) as [|c g]; [done|].
  unfold slot_text. cbn [clauseBuilder.kind clauseBuilder.me].
  rewrite enter_onceClauses, MultiExpression_Build_Join, map_map.
  unfold keyword_once.
  destruct (Statement.Kind st), k; rewrite ?string_app_assoc; reflexivity.
Qed.

Lemma enter_eq (st : Statement) :
  Statement.enter st
  = Statement.mkFrame st "" (slots_of (fun _ => None))
      (Statement.onceClauses (Statement.enter st)).
Proof. unfold Statement.enter. simpl. by destruct (Statement.Kind st). Qed.

(** The second and the third loop, from a frame with an empty slot
    array and a once-table in which nothing has run. *)
Lemma loops_frame (st : Statement) (b : string) (m0 : gmap ClauseKind sync.Once) :
  (forall k o, m0 !! k = Some o -> sync.done o = false) ->
  let fr2 :=
    fold_left Statement.collect (Statement.Clauses st)
      (Statement.mkFrame st b (slots_of (fun _ => None)) m0) in
  exists m',
    fold_left Statement.emit (Statement.clauses fr2) fr2
    = Statement.mkFrame st
        (b +:+ cat (map (fun k => slot_text m0 (slot_of (Statement.Clauses st) k))
                      ClauseKind_ascending))
        (slots_of (slot_of (Statement.Clauses st))) m'
    /\ (forall k, clauses_of_kind k (Statement.Clauses st) = [] -> m' !! k = m0 !! k)
    /\ (forall k, clauses_of_kind k (Statement.Clauses st) <> [] ->
         m' !! k = (fun _ => sync.mkOnce true) <$> m0 !! k).
Proof.
  intros Hfresh fr2. subst fr2.
  set (fr1 := Statement.mkFrame st _ _ m0).
  destruct (collect_fold (Statement.Clauses st) (fun _ => None) fr1)
    as (f' & Hfold & Hf'); [done|].
  rewrite Hfold.
  assert (Hslots : slots_of f' = slots_of (slot_of (Statement.Clauses st))).
  { unfold slots_of. f_equal. apply map_ext. intros k. apply Hf'. }
  rewrite Hslots. subst fr1.
  cbn [Statement.set_clauses Statement.s Statement.builder Statement.clauses
       Statement.onceClauses].
  unfold slots_of at 1. rewrite fold_left_app.
  edestruct (emit_fold (slot_of (Statement.Clauses st))
               (slot_of_kind (Statement.Clauses st))
               ClauseKind_ascending) as (m' & Hemit & Hsame & Hdone);
    [apply ClauseKind_ascending_NoDup| |rewrite Hemit].
  { intros k o _. apply Hfresh. }
  exists m'. split; [|split].
  - reflexivity.
  - intros k Hk. apply Hsame. right. by apply slot_of_None.
  - intros k Hk. apply Hdone; [apply ClauseKind_ascending_all|].
    destruct (slot_of (Statement.Clauses st) k) eqn:E; [done|].
    by apply slot_of_None in E.
Qed.

(** The frame that [Build] ends with: the receiver as it came in, the
    header followed by the groups in ascending kind order in the builder,
    and the slot of each kind holding that kind's clauses in the order of
    the clause list. *)
Lemma run_frame (st : Statement) :
  exists m',
    Statement.run st
    = Statement.mkFrame st
        (header st
           +:+ cat (map (group_text (Statement.Kind st) (Statement.Clauses st))
                      ClauseKind_ascending))
        (slots_of (slot_of (Statement.Clauses st))) m'
    /\ (forall k, clauses_of_kind k (Statement.Clauses st) = [] ->
         m' !! k = Statement.onceClauses (Statement.enter st) !! k)
    /\ (forall k, clauses_of_kind k (Statement.Clauses st) <> [] ->
         m' !! k = (fun _ => sync.mkOnce true)
                     <$> Statement.onceClauses (Statement.enter st) !! k).
Proof.
  destruct (loops_frame st (header st)
              (Statement.onceClauses (Statement.enter st)) (enter_fresh st))
    as (m' & Hrun & Hsame & Hdone).
  exists m'. split; [|done].
  unfold Statement.run. rewrite (enter_eq st).
  cbn [Statement.WriteString Statement.s Statement.builder Statement.clauses
       Statement.onceClauses].
  rewrite write_expr_fold.
  cbn [with_builder Statement.s Statement.builder Statement.clauses
       Statement.onceClauses].
  etrans; [exact Hrun|]. do 3 f_equal.
  apply map_ext. intros k. apply slot_text_group.
Qed.

Lemma run_builder (st : Statement) :
  Statement.builder (Statement.run st)
  = header st
      +:+ cat (map (group_text (Statement.Kind st) (Statement.Clauses st))
                 ClauseKind_ascending).
Proof. destruct (run_frame st) as (m' & -> & _). done. Qed.


Lemma run_clauses (st : Statement) (k : ClauseKind) :
  Statement.clauses (Statement.run st) !! ClauseKind_uint k
  = Some (slot_of (Statement.Clauses st) k).
Proof. destruct (run_frame st) as (m' & -> & _). by destruct k. Qed.

Lemma Build_groups (st : Statement) :
  Statement.Build st
  = strings.TrimSpace
      (header st
         +:+ cat (map (group_text (Statement.Kind st) (Statement.Clauses st))
                    ClauseKind_ascending)).
Proof. unfold Statement.Build. by rewrite run_builder. Qed.

(** The groups depend on the clause list through the clauses of each
    kind only. *)
Lemma Build_by_kind (st st' : Statement) :
  Statement.Kind st' = Statement.Kind st ->
  Statement.Expressions st' = Statement.Expressions st ->
  (forall k, clauses_of_kind k (Statement.Clauses st')
             = clauses_of_kind k (Statement.Clauses st)) ->
  Statement.Build st' = Statement.Build st.
Proof.
  intros Hk He Hcs. rewrite !Build_groups. unfold header, group_text.
  rewrite Hk, He. do 3 f_equal. apply map_ext. intros k. by rewrite Hcs.
Qed.

Lemma clauses_of_kind_twice (k k' : ClauseKind) (cs : list Clause) :
  clauses_of_kind k (clauses_of_kind k' cs)
  = if decide (k = k') then clauses_of_kind k cs else [].
Proof.
  unfold clauses_of_kind. induction cs as [|c cs IH]; [by case_decide|].
  rewrite !filter_cons.
  destruct (decide (Clause.Kind c tt = k')) as [E'|E'];
    destruct (decide (Clause.Kind c tt = k)) as [E|E];
    rewrite ?filter_cons, ?IH; repeat case_decide; congruence.
Qed.

Lemma clauses_of_kind_app (k : ClauseKind) (cs1 cs2 : list Clause) :
  clauses_of_kind k (cs1 ++ cs2) = clauses_of_kind k cs1 ++ clauses_of_kind k cs2.
Proof. apply filter_app. Qed.

Lemma clauses_of_kind_sorted (k : ClauseKind) (cs : list Clause) :
  clauses_of_kind k (kind_sorted cs) = clauses_of_kind k cs.
Proof.
  unfold kind_sorted, ClauseKind_ascending. simpl.
  rewrite !clauses_of_kind_app, !clauses_of_kind_twice.
  destruct k; simpl; by rewrite ?app_nil_r.
Qed.


Lemma run_once_present (st : Statement) (k : ClauseKind) :
  clauses_of_kind k (Statement.Clauses st) <> [] ->
  Statement.onceClauses (Statement.run st) !! k
  = (fun _ => sync.mkOnce true) <$> Statement.onceClauses (Statement.enter st) !! k.
Proof. destruct (run_frame st) as (m' & -> & _ & H). apply H. Qed.

Lemma clauses_of_kind_head (k : ClauseKind) (cs : list Clause) (c : Clause)
    (g : list Clause) :
  clauses_of_kind k cs = c :: g -> Clause.Kind c tt = k.
Proof.
  intros H. assert (Hin : c ∈ clauses_of_kind k cs) by (rewrite H; left).
  unfold clauses_of_kind in Hin. by apply list_elem_of_filter in Hin as [? _].
Qed.

Lemma declared_Delimeter_Kind (c : Clause) :
  declared c -> Clause.Delimeter c tt = declared_Delimeter (Clause.Kind c tt).
Proof. by intros []. Qed.

Lemma ClauseKind_ascending_split (k : ClauseKind) :
  ClauseKind_ascending = kinds_below k ++ k :: kinds_above k.
Proof. by destruct k. Qed.

Lemma Build_around (st : Statement) (k : ClauseKind) :
  let gt := group_text (Statement.Kind st) (Statement.Clauses st) in
  Statement.Build st
  = strings.TrimSpace
      (header st +:+ cat (map gt (kinds_below k)) +:+ gt k
         +:+ cat (map gt (kinds_above k))).
Proof.
  intros gt. rewrite Build_groups, (ClauseKind_ascending_split k).
  by rewrite map_app, cat_app.
Qed.

Lemma Select_appends (columns : Expression) (cs : list Clause) :
  forall st,
    fold_left (fun st (opt : StatementOption) => opt st)
      (map (fun c st => append_clause st c) cs) st
    = Statement.make (Statement.Kind st) (Statement.Expressions st)
        (Statement.Clauses st ++ cs).
Proof.
  induction cs as [|c cs IH]; intros st; simpl.
  - rewrite app_nil_r. by destruct st.
  - rewrite IH. unfold append_clause. simpl. by rewrite <- app_assoc.
Qed.

(** ** The claims *)

(** The groups, written out. *)
Lemma Build_clause_groups (st : Statement) :
  let sk := Statement.Kind st in
  let cs := Statement.Clauses st in
  Statement.Build st
  = strings.TrimSpace
      (header st
         +:+ group_text sk cs _unknownClause
         +:+ group_text sk cs _FromClause
         +:+ group_text sk cs _JoinClause
         +:+ group_text sk cs _LeftJoinClause
         +:+ group_text sk cs _WhereClause
         +:+ group_text sk cs _GroupByClause
         +:+ group_text sk cs _OrderByClause).
Proof.
  intros sk cs.
  rewrite Build_groups. unfold ClauseKind_ascending. simpl.
  by rewrite string_app_nil_r.
Qed.

(** C1.  Whatever the order in which the clauses were appended, [Build]
    writes the header and then the groups in the fixed ascending order
    of the kinds: the slot of value 0 (empty unless a clause reports the
    unknown kind, which none of the package's clauses does), then from,
    join, left join, where, group by, order by.  Each group is made of
    the clauses of its kind only, so the output is the one of the same
    clauses appended in kind order. *)
Theorem Build_clause_kind_order (st : Statement) :
  let sk := Statement.Kind st in
  let cs := Statement.Clauses st in
  Statement.Build st
  = strings.TrimSpace
      (header st
         +:+ group_text sk cs _unknownClause
         +:+ group_text sk cs _FromClause
         +:+ group_text sk cs _JoinClause
         +:+ group_text sk cs _LeftJoinClause
         +:+ group_text sk cs _WhereClause
         +:+ group_text sk cs _GroupByClause
         +:+ group_text sk cs _OrderByClause)
  /\ Statement.Build (Statement.make sk (Statement.Expressions st) (kind_sorted cs))
     = Statement.Build st.
Proof.
  intros sk cs. split.
  - apply Build_clause_groups.
  - apply Build_by_kind; [done..|]. intros k. apply clauses_of_kind_sorted.
Qed.

(** C2.  In a select statement the keyword of the from group and of the
    where group is written by the assembler, once, in front of the
    joined texts of the group's clauses, however many they are: the from
    clauses joined by a comma and a space, the where clauses by " and ";
    the once-object of the kind has run when [Build] returns.  Two
    [From] calls give "from a, b". *)
Theorem from_where_keyword_once :
  (forall st : Statement,
      Statement.Kind st = _SelectStatement ->
      let cs := Statement.Clauses st in
      let gt := group_text _SelectStatement cs in
      (forall fs : list fromClause,
          fs <> [] ->
          clauses_of_kind _FromClause cs = map fromClause.to_Clause fs ->
          Statement.Build st
          = strings.TrimSpace
              (header st +:+ gt _unknownClause
                 +:+ ("from " +:+ strings.Join (map fromClause.Build fs) ", " +:+ " ")
                 +:+ gt _JoinClause +:+ gt _LeftJoinClause +:+ gt _WhereClause
                 +:+ gt _GroupByClause +:+ gt _OrderByClause)
          /\ Statement.onceClauses (Statement.run st) !! _FromClause
             = Some (sync.mkOnce true))
      /\ (forall ws : list whereClause,
             ws <> [] ->
             clauses_of_kind _WhereClause cs = map whereClause.to_Clause ws ->
             Statement.Build st
             = strings.TrimSpace
                 (header st +:+ gt _unknownClause +:+ gt _FromClause
                    +:+ gt _JoinClause +:+ gt _LeftJoinClause
                    +:+ ("where " +:+ strings.Join (map whereClause.Build ws) " and "
                           +:+ " ")
                    +:+ gt _GroupByClause +:+ gt _OrderByClause)
             /\ Statement.onceClauses (Statement.run st) !! _WhereClause
                = Some (sync.mkOnce true)))
  /\ Statement.Build
       (Select (Ref "*") [From [Ref "a" : Expression]; From [Ref "b" : Expression]])
     = "select * from a, b".
Proof.
  split; [|by vm_compute].
  intros st Hk cs gt. split.
  - intros fs Hne Hfs. split.
    + rewrite (Build_clause_groups st). fold cs. rewrite Hk. fold gt.
      do 3 f_equal. rewrite <- !string_app_assoc. f_equal.
      subst gt. unfold group_text. rewrite Hfs.
      destruct fs as [|f fs]; [done|].
      cbn [map]. rewrite <- map_cons, map_map. reflexivity.
    + rewrite run_once_present by (fold cs; rewrite Hfs; by destruct fs).
      by rewrite enter_onceClauses, Hk.
  - intros ws Hne Hws. split.
    + rewrite (Build_clause_groups st). fold cs. rewrite Hk. fold gt.
      do 6 f_equal. rewrite <- !string_app_assoc. f_equal.
      subst gt. unfold group_text. rewrite Hws.
      destruct ws as [|w ws]; [done|].
      cbn [map]. rewrite <- map_cons, map_map. reflexivity.
    + rewrite run_once_present by (fold cs; rewrite Hws; by destruct ws).
      by rewrite enter_onceClauses, Hk.
Qed.

Lemma from_where_keyword_once_witness :
  let st :=
    Select (Ref "*")
      [From [Ref "a" : Expression];
       Where [Equals (Ref "x") (Some (Placeholder : Expression)) : Expression];
       From [Ref "b" : Expression]] in
  let fs := [fromClause.make [Ref "a" : Expression];
             fromClause.make [Ref "b" : Expression]] in
  Statement.Kind st = _SelectStatement
  /\ fs <> []
  /\ clauses_of_kind _FromClause (Statement.Clauses st) = map fromClause.to_Clause fs
  /\ Statement.onceClauses (Statement.run st) !! _FromClause = Some (sync.mkOnce true)
  /\ Statement.Build st = "select * from a, b where (x = ?)".
Proof.
  intros st fs.
  split; [reflexivity|]. split; [discriminate|]. split; [reflexivity|].
  split; [|vm_compute; reflexivity].
  destruct from_where_keyword_once as [H _].
  destruct (H st eq_refl) as [Hfrom _].
  apply (Hfrom fs); [discriminate | reflexivity].
Defined.

(** C3.  Two [Where] calls give two parenthesized groups joined by
    " and " behind one [where] keyword. *)
Theorem Where_twice_merges :
  Statement.Build
    (Select (Ref "*")
       [From [Ref "t" : Expression];
        Where [Equals (Ref "a") (Some (Placeholder : Expression)) : Expression];
        Where [Equals (Ref "b") (Some (Placeholder : Expression)) : Expression]])
  = "select * from t where (a = ?) and (b = ?)".
Proof. vm_compute. reflexivity. Qed.

(** C4, as the code has it.  Two group-by clauses are joined by the
    delimiter that [groupByClause] declares, a comma and a space: the
    group reads "group by <cols1>, group by <cols2>", one keyword per
    clause. *)
Theorem GroupBy_twice_comma_joined (st : Statement) (g1 g2 : groupByClause) :
  clauses_of_kind _GroupByClause (Statement.Clauses st)
  = [groupByClause.to_Clause g1; groupByClause.to_Clause g2] ->
  let gt := group_text (Statement.Kind st) (Statement.Clauses st) in
  Statement.Build st
  = strings.TrimSpace
      (header st +:+ gt _unknownClause +:+ gt _FromClause +:+ gt _JoinClause
         +:+ gt _LeftJoinClause +:+ gt _WhereClause
         +:+ (("group by " +:+ strings.Join (groupByClause.columns g1) ", ")
                +:+ ", "
                +:+ ("group by " +:+ strings.Join (groupByClause.columns g2) ", ")
                +:+ " ")
         +:+ gt _OrderByClause).
Proof.
  intros Hg gt. rewrite (Build_clause_groups st). fold gt.
  assert (gt _GroupByClause
          = ("group by " +:+ strings.Join (groupByClause.columns g1) ", ")
              +:+ ", "
              +:+ ("group by " +:+ strings.Join (groupByClause.columns g2) ", ")
              +:+ " ") as ->; [|done].
  subst gt. unfold group_text. rewrite Hg.
  cbn [map strings.Join Clause.Expr Clause.Delimeter Expression.Build
       groupByClause.to_Clause groupByClause.Build groupByClause.Delimeter
       groupByClause.Kind].
  rewrite !string_app_assoc.
  destruct (Statement.Kind st); reflexivity.
Qed.

Lemma GroupBy_twice_comma_joined_witness :
  let st := Select (Ref "*") [GroupBy ["a"]; From [Ref "t" : Expression]; GroupBy ["b"; "c"]] in
  clauses_of_kind _GroupByClause (Statement.Clauses st)
  = [groupByClause.to_Clause (groupByClause.make ["a"]);
     groupByClause.to_Clause (groupByClause.make ["b"; "c"])]
  /\ Statement.Build st = "select * from t group by a, group by b, c".
Proof.
  intros st. split; [reflexivity|].
  rewrite (GroupBy_twice_comma_joined st (groupByClause.make ["a"])
             (groupByClause.make ["b"; "c"]) eq_refl).
  vm_compute. reflexivity.
Defined.

(** C4, as it is stated, fails: with two [GroupBy] calls the output has
    no place where the two rendered clauses stand with a single space
    between them. *)
Lemma GroupBy_twice_not_space_joined :
  let st := Select (Ref "*") [GroupBy ["a"]; GroupBy ["b"]] in
  let g1 := groupByClause.make ["a"] in
  let g2 := groupByClause.make ["b"] in
  clauses_of_kind _GroupByClause (Statement.Clauses st)
  = [groupByClause.to_Clause g1; groupByClause.to_Clause g2]
  /\ Statement.Build st = "select * group by a, group by b"
  /\ ~ (exists pre post,
           Statement.Build st
           = pre +:+ (groupByClause.Build g1 +:+ " " +:+ groupByClause.Build g2)
               +:+ post).
Proof.
  intros st g1 g2. split; [reflexivity|]. split; [vm_compute; reflexivity|].
  intros (pre & post & H).
  pose proof (Contains_intro pre
                (groupByClause.Build g1 +:+ " " +:+ groupByClause.Build g2) post) as C.
  rewrite <- H in C. vm_compute in C. discriminate.
Qed.


(** C6.  The unary predicates end with their operator: the nil right
    operand adds nothing, not even a space. *)
Theorem IsNull_ends_with_operator (e : Expression) :
  ExpressionFunc_Build (IsNull e) = Expression.Build e tt +:+ " is null"
  /\ ExpressionFunc_Build (IsNotNull e) = Expression.Build e tt +:+ " is not null"
  /\ ExpressionFunc_Build (IsNull (Ref "x")) = "x is null".
Proof. repeat split; reflexivity. Qed.

(** C7.  [FromSubselect] with an alias appends one from clause whose
    table is the sub-statement in parentheses, aliased as a quoted
    literal; the enclosing statement renders it behind [from]. *)
Theorem FromSubselect_alias :
  let sub := Select (Columns [Ref "id" : Expression]) [From [Ref "t" : Expression]] in
  let table : Expression := As (Wrap sub) "s" in
  (forall st : Statement,
      Statement.Clauses (FromSubselect sub "s" st)
      = Statement.Clauses st ++ [fromClause.to_Clause (fromClause.make [table])])
  /\ Expression.Build table tt = "(select id from t) as 's'"
  /\ Statement.Build (Select (Ref "*") [FromSubselect sub "s"])
     = "select * from (select id from t) as 's'".
Proof.
  intros sub table. split; [|split].
  - intros st. reflexivity.
  - vm_compute. reflexivity.
  - vm_compute. reflexivity.
Qed.



(** C9.  The clauses of one kind reach the output in the order in which
    they were appended, which is the order in which [Select] applied the
    configuration functions: the slot of the kind holds them in that
    order, and the group, written between the groups of the lower and of
    the higher kinds, is their texts joined by the delimiter of the
    first of them, which for a clause of the package is the delimiter
    that the clause type of the kind declares. *)
Theorem same_kind_keeps_append_order (st : Statement) (k : ClauseKind)
    (c : Clause) (g : list Clause) :
  clauses_of_kind k (Statement.Clauses st) = c :: g ->
  let gt := group_text (Statement.Kind st) (Statement.Clauses st) in
  Statement.clauses (Statement.run st) !! ClauseKind_uint k
  = Some (Some (clauseBuilder.make k
                  (MultiExpression.make (Clause.Delimeter c tt)
                     (map Clause.Expr (c :: g)))))
  /\ Statement.Build st
     = strings.TrimSpace
         (header st +:+ cat (map gt (kinds_below k))
            +:+ (keyword_once (Statement.Kind st) k
                   +:+ strings.Join
                         (map (fun c : Clause => Expression.Build c tt) (c :: g))
                         (Clause.Delimeter c tt)
                   +:+ " ")
            +:+ cat (map gt (kinds_above k)))
  /\ (declared c -> Clause.Delimeter c tt = declared_Delimeter k)
  /\ (forall (columns : Expression) (cs : list Clause),
         Statement.Clauses
           (Select columns (map (fun c st => append_clause st c) cs)) = cs).
Proof.
  intros Hk gt. split; [|split; [|split]].
  - rewrite run_clauses. unfold slot_of. by rewrite Hk.
  - rewrite (Build_around st k). fold gt. do 3 f_equal.
    subst gt. unfold group_text. by rewrite Hk.
  - intros Hd. rewrite (declared_Delimeter_Kind c Hd).
    by rewrite (clauses_of_kind_head _ _ _ _ Hk).
  - intros columns cs. unfold Select. by rewrite (Select_appends columns).
Qed.

Lemma same_kind_keeps_append_order_witness :
  let st :=
    Select (Ref "*")
      [LeftJoin (Ref "b") [Equals (Ref "b.id") (Some (Ref "a.b" : Expression)) : Expression];
       From [Ref "a" : Expression];
       LeftJoin (Ref "c") [Equals (Ref "c.id") (Some (Ref "a.c" : Expression)) : Expression]] in
  let j1 : Clause :=
    leftJoinClause.make (Ref "b")
      [Equals (Ref "b.id") (Some (Ref "a.b" : Expression)) : Expression] in
  let j2 : Clause :=
    leftJoinClause.make (Ref "c")
      [Equals (Ref "c.id") (Some (Ref "a.c" : Expression)) : Expression] in
  clauses_of_kind _LeftJoinClause (Statement.Clauses st) = [j1; j2]
  /\ Statement.clauses (Statement.run st) !! ClauseKind_uint _LeftJoinClause
     = Some (Some (clauseBuilder.make _LeftJoinClause
                     (MultiExpression.make " " (map Clause.Expr [j1; j2]))))
  /\ Statement.Build st
     = "select * from a left join b on b.id = a.b left join c on c.id = a.c".
Proof.
  intros st j1 j2.
  destruct (same_kind_keeps_append_order st _LeftJoinClause j1 [j2] eq_refl)
    as (Hslot & Hbuild & _).
  split; [reflexivity|]. split; [exact Hslot|].
  rewrite Hbuild. vm_compute. reflexivity.
Defined.

(** C10.  [Where] without predicates still appends a where clause, whose
    text is an empty pair of parentheses, and a select statement with
    that clause alone ends in "where ()". *)
Theorem Where_no_predicates :
  (forall st : Statement,
      Statement.Clauses (Where [] st)
      = Statement.Clauses st
          ++ [whereClause.to_Clause (whereClause.make (MultiExpression.make " and " []))])
  /\ whereClause.Build (whereClause.make (MultiExpression.make " and " [])) = "()"
  /\ (forall columns : Expression,
         Statement.Build (Select columns [Where []])
         = ("select " +:+ Expression.Build columns tt +:+ " ") +:+ "where ()").
Proof.
  split; [|split].
  - intros st. reflexivity.
  - reflexivity.
  - intros columns.
    transitivity
      (strings.TrimSpace
         (String "s" ("elect " +:+ Expression.Build columns tt +:+ " where (")
            +:+ String ")" " ")).
    + rewrite Build_groups. f_equal.
      unfold header, group_text, ClauseKind_ascending. simpl.
      rewrite string_app_cons, !string_app_assoc. reflexivity.
    + unfold strings.TrimSpace.
      rewrite string_app_cons, TrimLeft_plain by done.
      rewrite <- string_app_cons, TrimRight_plain_space by done.
      rewrite string_app_cons, !string_app_assoc. reflexivity.
Qed.

(** ** Further properties of the package *)

(** The builder of a select statement is [body] followed by the byte
    [c] and the white space [z]: unfold the assembler on the literal
    clause list and compare the pieces. *)
Ltac build_shape body c z :=
  rewrite Build_groups;
  transitivity (strings.TrimSpace ("select " +:+ body +:+ String c z));
  [ f_equal;
    unfold header, group_text, ClauseKind_ascending, Select, From, Where,
      OrderBy, GroupBy, Join, LeftJoin, append_clause;
    simpl;
    cbv beta iota delta
      [whereClause.Build fromClause.Build joinClause.Build leftJoinClause.Build
       orderByClause.Build groupByClause.Build ExpressionFunc_Build Wrap As Const
       Expression.Build MultiExpression.to_Expression ExpressionFunc_to_Expression
       Statement.to_Expression whereClause.predicates fromClause.tables
       joinClause.table joinClause.predicates leftJoinClause.table
       leftJoinClause.predicates orderByClause.columns groupByClause.columns];
    cbn [strings.Join map];
    rewrite ?MultiExpression_Build_Join, ?string_app_assoc; reflexivity
  | rewrite TrimSpace_select by done;
    rewrite ?string_app_assoc; reflexivity ].

(** [MultiExpression.Build] returns the texts of its expressions, in
    order, with the delimiter between two of them: nothing for no
    expression, and no delimiter for one. *)
Theorem MultiExpression_Build_joined (d : string) (es : list Expression) :
  MultiExpression.Build (MultiExpression.make d es)
  = strings.Join (map (fun e => Expression.Build e tt) es) d
  /\ MultiExpression.Build (MultiExpression.make d []) = ""
  /\ (forall e, MultiExpression.Build (MultiExpression.make d [e])
                = Expression.Build e tt)
  /\ (forall e1 e2, MultiExpression.Build (MultiExpression.make d [e1; e2])
                    = Expression.Build e1 tt +:+ d +:+ Expression.Build e2 tt).
Proof.
  split; [apply MultiExpression_Build_Join|].
  repeat split; intros; by rewrite MultiExpression_Build_Join.
Qed.

(** [Func] renders the name, then the arguments in parentheses, joined
    by a comma and a space; without arguments, the name and an empty
    pair of parentheses. *)
Theorem Func_call (fn : string) (args : list Expression) :
  ExpressionFunc_Build (Func fn args)
  = fn +:+ "(" +:+ strings.Join (map (fun e => Expression.Build e tt) args) ", " +:+ ")"
  /\ ExpressionFunc_Build (Func fn []) = fn +:+ "()".
Proof.
  assert (H : forall args,
             ExpressionFunc_Build (Func fn args)
             = fn +:+ "(" +:+ strings.Join (map (fun e => Expression.Build e tt) args) ", "
                 +:+ ")").
  { intros a. unfold Func, ExpressionFunc_Build, Wrap, Ref.
    cbn [Expression.Build MultiExpression.to_Expression].
    by rewrite MultiExpression_Build_Join. }
  split; [apply H|]. by rewrite H.
Qed.

(** [Where] appends one clause of the where kind whose text is the
    predicates' texts joined by " and ", in parentheses. *)
Theorem Where_clause_text (predicates : list Expression) (st : Statement) :
  exists c : Clause,
    Statement.Clauses (Where predicates st) = Statement.Clauses st ++ [c]
    /\ Clause.Kind c tt = _WhereClause
    /\ Clause.Delimeter c tt = " and "
    /\ Expression.Build c tt
       = "(" +:+ strings.Join (map (fun e => Expression.Build e tt) predicates) " and "
           +:+ ")".
Proof.
  eexists. split; [reflexivity|]. split; [reflexivity|]. split; [reflexivity|].
  cbn [Expression.Build Clause.Expr whereClause.to_Clause].
  unfold whereClause.Build, ExpressionFunc_Build, Wrap.
  cbn [Expression.Build MultiExpression.to_Expression whereClause.predicates].
  by rewrite MultiExpression_Build_Join.
Qed.

(** [FromSubselect] appends one from clause with one table: the
    sub-statement in parentheses, and behind it the alias as a quoted
    literal unless the alias is empty. *)
Theorem FromSubselect_optional_alias (sub : Statement) (as_ : string)
    (st : Statement) :
  exists table : Expression,
    Statement.Clauses (FromSubselect sub as_ st)
    = Statement.Clauses st ++ [fromClause.to_Clause (fromClause.make [table])]
    /\ Expression.Build table tt
       = if decide (as_ = "")
         then "(" +:+ Statement.Build sub +:+ ")"
         else ("(" +:+ Statement.Build sub +:+ ")") +:+ " as '" +:+ as_ +:+ "'".
Proof.
  unfold FromSubselect.
  destruct (decide (as_ ≠ "")) as [Hne|He]; eexists; (split; [reflexivity|]).
  - by rewrite decide_False.
  - rewrite decide_True; [done|]. by destruct (decide (as_ = "")).
Qed.

(** The plain query: a projection, the tables and one [Where] give the
    select keyword, the projection, [from] with the tables joined by a
    comma and a space, and [where] with the predicates joined by
    " and " in parentheses, single-spaced and with no space at the end. *)
Theorem select_from_where (columns : Expression) (tables predicates : list Expression) :
  Statement.Build (Select columns [From tables; Where predicates])
  = "select " +:+ Expression.Build columns tt
      +:+ " from " +:+ strings.Join (map (fun e => Expression.Build e tt) tables) ", "
      +:+ " where ("
      +:+ strings.Join (map (fun e => Expression.Build e tt) predicates) " and "
      +:+ ")".
Proof.
  build_shape
    (Expression.Build columns tt
       +:+ " from " +:+ strings.Join (map (fun e => Expression.Build e tt) tables) ", "
       +:+ " where ("
       +:+ strings.Join (map (fun e => Expression.Build e tt) predicates) " and ")
    ")"%char " ".
Qed.

(** A sub-statement as the table: its own text, whatever it is, stands
    in parentheses behind [from], followed by the quoted alias when one
    is given. *)
Theorem select_from_subselect (columns : Expression) (sub : Statement) (as_ : string) :
  Statement.Build (Select columns [FromSubselect sub as_])
  = "select " +:+ Expression.Build columns tt +:+ " from ("
      +:+ Statement.Build sub
      +:+ (if decide (as_ = "") then ")" else ") as '" +:+ as_ +:+ "'").
Proof.
  unfold FromSubselect.
  destruct (decide (as_ ≠ "")) as [Hne|He].
  - rewrite decide_False by done.
    build_shape
      (Expression.Build columns tt +:+ " from (" +:+ Statement.Build sub
         +:+ ") as '" +:+ as_)
      "'"%char " ".
  - rewrite decide_True by (by destruct (decide (as_ = ""))).
    build_shape
      (Expression.Build columns tt +:+ " from (" +:+ Statement.Build sub)
      ")"%char " ".
Qed.

(** [OrderBy] and [GroupBy] without a column, and [Join] and [LeftJoin]
    without a predicate, still append their clause: the statement ends
    with the bare keyword, respectively with a dangling [on]. *)
Theorem empty_arguments_leave_bare_keyword (columns table : Expression)
    (tables : list Expression) :
  Statement.Build (Select columns [OrderBy []])
  = "select " +:+ Expression.Build columns tt +:+ " order by"
  /\ Statement.Build (Select columns [GroupBy []])
     = "select " +:+ Expression.Build columns tt +:+ " group by"
  /\ Statement.Build (Select columns [From tables; Join table []])
     = "select " +:+ Expression.Build columns tt
         +:+ " from " +:+ strings.Join (map (fun e => Expression.Build e tt) tables) ", "
         +:+ " join " +:+ Expression.Build table tt +:+ " on"
  /\ Statement.Build (Select columns [From tables; LeftJoin table []])
     = "select " +:+ Expression.Build columns tt
         +:+ " from " +:+ strings.Join (map (fun e => Expression.Build e tt) tables) ", "
         +:+ " left join " +:+ Expression.Build table tt +:+ " on".
Proof.
  split; [|split; [|split]].
  - build_shape (Expression.Build columns tt +:+ " order b") "y"%char "  ".
  - build_shape (Expression.Build columns tt +:+ " group b") "y"%char "  ".
  - build_shape
      (Expression.Build columns tt
         +:+ " from " +:+ strings.Join (map (fun e => Expression.Build e tt) tables) ", "
         +:+ " join " +:+ Expression.Build table tt +:+ " o")
      "n"%char "  ".
  - build_shape
      (Expression.Build columns tt
         +:+ " from " +:+ strings.Join (map (fun e => Expression.Build e tt) tables) ", "
         +:+ " left join " +:+ Expression.Build table tt +:+ " o")
      "n"%char "  ".
Qed.

(** ** The package's own tests and examples, run on the embedding *)

Example TrimSpace_ex1 : strings.TrimSpace "  select * from t  " = "select * from t".
Proof. reflexivity. Qed.

Example ClauseKind_String_ex :
  map ClauseKind_String
    [_unknownClause; _FromClause; _JoinClause; _LeftJoinClause; _WhereClause;
     _GroupByClause; _OrderByClause]
  = ["_unknownClause"; "from"; "join"; "left join"; "where"; "group by"; "order by"].
Proof. reflexivity. Qed.

Example StatementKind_String_ex :
  map StatementKind_String [_unknownStatement; _SelectStatement]
  = ["_unknownStatement"; "select"].
Proof. reflexivity. Qed.

Example Func_ex :
  ExpressionFunc_Build
    (As (Func "coalesce" [Ref "title" : Expression; Const "no title" : Expression]) "title")
  = "coalesce(title, 'no title') as 'title'".
Proof. reflexivity. Qed.

Example simple_select :
  Statement.Build
    (Select (Columns [Ref "*" : Expression])
       [From [Ref "items" : Expression];
        Where [Equals (Ref "id") (Some (Placeholder : Expression)) : Expression];
        OrderBy ["created_at"]])
  = "select * from items where (id = ?) order by created_at".
Proof. vm_compute. reflexivity. Qed.

Example subselect_table :
  Statement.Build
    (Select (Columns [Ref "*" : Expression])
       [FromSubselect
          (Select (Columns [Ref "id" : Expression])
             [From [Ref "items" : Expression]; OrderBy ["created_at"]])
          ""])
  = "select * from (select id from items order by created_at)".
Proof. vm_compute. reflexivity. Qed.

Example select_is_null :
  Statement.Build
    (Select (Columns [Ref "i.id" : Expression])
       [From [RefAs "items" "i" : Expression];
        Where [IsNotNull (Ref "i.title") : Expression;
               IsNull (Ref "i.content") : Expression];
        OrderBy ["i.created_at"]])
  = "select i.id from items as 'i' where (i.title is not null and i.content is null) order by i.created_at".
Proof. vm_compute. reflexivity. Qed.

Example select_column_functions :
  Statement.Build
    (Select
       (Columns
          [Ref "id" : Expression;
           As (Func "coalesce" [Ref "title" : Expression; Const "no title" : Expression])
             "title" : Expression])
       [From [Ref "items" : Expression];
        Where [Equals (Ref "id") (Some (Placeholder : Expression)) : Expression];
        OrderBy ["created_at"]])
  = "select id, coalesce(title, 'no title') as 'title' from items where (id = ?) order by created_at".
Proof. vm_compute. reflexivity. Qed.

Example ExampleFrom :
  Statement.Build (Select (Ref "*") [From [RefAs "items" "i" : Expression]])
  = "select * from items as 'i'".
Proof. vm_compute. reflexivity. Qed.

Example ExampleFromSubselect :
  let sub := Select (Ref "1 + 1") [] in
  Statement.Build (Select (Ref "*") [FromSubselect sub ""])
  = "select * from (select 1 + 1)"
  /\ Statement.Build (Select (Ref "*") [FromSubselect sub "result"])
     = "select * from (select 1 + 1) as 'result'".
Proof. split; vm_compute; reflexivity. Qed.

Example ExampleWhere :
  Statement.Build
    (Select (Ref "*")
       [From [Ref "items" : Expression];
        Where [Equals (Ref "foo") (Some (Placeholder : Expression)) : Expression;
               Equals (Ref "bar") (Some (Placeholder : Expression)) : Expression]])
  = "select * from items where (foo = ? and bar = ?)".
Proof. vm_compute. reflexivity. Qed.

Example TrimSpace_unicode :
  strings.TrimSpace (String "194" (String "160" ("a b" +:+ String "226" (String "128" (String "137" " ")))))
  = "a b".
Proof. reflexivity. Qed.
